(** * GeneratedAssetSymbols.h: the asset-catalog symbol header of MetacognitiveJournal

    The header is 21 lines of Objective-C: an import, a [__has_attribute]
    check that defines the helper macro [AC_SWIFT_PRIVATE], four
    [static NSString * const] declarations that use the macro, and a final
    [#undef].  Its meaning is what the preprocessor and the declaration
    grammar make of those lines, so the development has three layers:

    - [Cpp]: the preprocessor (conditional stack, object-like macros with
      rescanning, emitted token lines);
    - [ObjC]: the declaration grammar the emitted lines are read with, the
      store of constants a loaded module holds, and what client code may do
      with a declared name;
    - [Header]: the 21 lines themselves, transcribed one by one, and the
      notions the statements about them use. *)

From Stdlib Require Import String Ascii List.
From stdpp Require Import gmap strings list fin_maps.

(** ** The preprocessor *)

Module Cpp.

(** Preprocessing tokens.  An Objective-C string literal [@"..."] is one
    token; its payload is the characters between the quotes. *)
Inductive token :=
| Ident (s : string)
| Punct (s : string)
| ObjCString (s : string).

#[global] Instance token_eq_dec : EqDecision token.
Proof. solve_decision. Defined.

(** One physical line of a header. *)
Inductive line :=
| Import (header : string)                    (* #import <header> *)
| IfHasAttribute (attr : string)              (* #if __has_attribute(attr) *)
| Define (name : string) (body : list token)  (* #define name body *)
| Else                                        (* #else *)
| Endif                                       (* #endif *)
| Undef (name : string)                       (* #undef name *)
| DocComment (text : string)                  (* /// text *)
| Blank
| Source (toks : list token).                 (* anything else *)

(** What the header sees of the compiler: the answer to
    [__has_attribute].  The header is Objective-C, read by clang (or a GCC
    that has the check); a compiler without [__has_attribute] is not
    modelled. *)
Record compiler := { has_attribute : string → bool }.

(** A frame of the conditional stack: is the group being read the one that
    was selected, and has [#else] been seen for it. *)
Record frame := { active : bool; else_seen : bool }.

Record state := {
  macros : gmap string (list token);
  conds : list frame;
  imports : list string;
  emitted : list (list token)
}.

Definition initial (env : gmap string (list token)) : state :=
  {| macros := env; conds := []; imports := []; emitted := [] |}.

Definition with_macros (m : gmap string (list token)) (st : state) : state :=
  {| macros := m; conds := conds st; imports := imports st; emitted := emitted st |}.

Definition with_conds (c : list frame) (st : state) : state :=
  {| macros := macros st; conds := c; imports := imports st; emitted := emitted st |}.

Definition with_import (h : string) (st : state) : state :=
  {| macros := macros st; conds := conds st; imports := imports st ++ [h];
     emitted := emitted st |}.

Definition emit (toks : list token) (st : state) : state :=
  {| macros := macros st; conds := conds st; imports := imports st;
     emitted := emitted st ++ [toks] |}.

(** A line is live when every enclosing group was selected. *)
Definition live (st : state) : bool := forallb active (conds st).

(** Expansion of one token.  The replacement list of a macro is rescanned
    with the macro itself disabled, so every nested expansion removes a
    name from the table: [size env] levels are always enough
    ([expand_token_fuel] below). *)
Fixpoint expand_token (fuel : nat) (env : gmap string (list token)) (t : token)
  : list token :=
  match fuel, t with
  | S n, Ident x =>
      match env !! x with
      | Some body => concat (map (expand_token n (delete x env)) body)
      | None => [t]
      end
  | _, _ => [t]
  end.

Definition expand (env : gmap string (list token)) (toks : list token) : list token :=
  concat (map (expand_token (size env) env) toks).

(** Replacing one name by a token list, with no rescanning: what [expand]
    amounts to when the macro is the only one in play ([expand_insert]). *)
Definition replace_ident (x : string) (body : list token) (toks : list token)
  : list token :=
  concat (map (λ t, if decide (t = Ident x) then body else [t]) toks).

(** The operand of [__has_attribute] is macro-expanded before the compiler
    is asked; what it expands to must be one identifier (a scoped name is
    not modelled). *)
Definition operand (env : gmap string (list token)) (a : string) : option string :=
  match expand env [Ident a] with
  | [Ident b] => Some b
  | _ => None
  end.

(** One line.  Conditional directives are tracked in skipped groups too, but
    their conditions are not evaluated there; every other line is skipped.
    An [#if] whose operand is malformed, [#else] and [#endif] without an
    open [#if], and a second [#else], are errors.  A [#define] of a name
    that is already a macro replaces it (clang warns and goes on).  An
    [#import] reads a header once: a header that was imported before is
    passed over; one met for the first time is recorded, and what it brings
    into the unit is its own and not part of this table or of the emitted
    lines. *)
Definition step (cc : compiler) (st : state) (l : line) : option state :=
  match l with
  | IfHasAttribute a =>
      if live st then
        match operand (macros st) a with
        | Some b =>
            Some (with_conds ({| active := has_attribute cc b; else_seen := false |}
                                :: conds st) st)
        | None => None
        end
      else Some (with_conds ({| active := false; else_seen := false |}
                               :: conds st) st)
  | Else =>
      match conds st with
      | f :: fs =>
          if else_seen f then None
          else Some (with_conds ({| active := negb (active f); else_seen := true |}
                                   :: fs) st)
      | [] => None
      end
  | Endif =>
      match conds st with
      | _ :: fs => Some (with_conds fs st)
      | [] => None
      end
  | Import h =>
      Some (if live st && negb (bool_decide (h ∈ imports st))
            then with_import h st else st)
  | Define x body =>
      Some (if live st then with_macros (<[x := body]> (macros st)) st else st)
  | Undef x =>
      Some (if live st then with_macros (delete x (macros st)) st else st)
  | Source toks =>
      Some (if live st then emit (expand (macros st) toks) st else st)
  | DocComment _ | Blank => Some st
  end.

Fixpoint run (cc : compiler) (st : state) (ls : list line) : option state :=
  match ls with
  | [] => Some st
  | l :: ls' =>
      match step cc st l with
      | Some st' => run cc st' ls'
      | None => None
      end
  end.

(** A whole file, read in the macro table [env] of the including
    translation unit.  A conditional left open at the end is an error. *)
Definition preprocess (cc : compiler) (env : gmap string (list token))
    (ls : list line) : option state :=
  match run cc (initial env) ls with
  | Some st => match conds st with [] => Some st | _ :: _ => None end
  | None => None
  end.

End Cpp.

(** ** Declarations and the constants of a loaded module *)

Module ObjC.
Import Cpp.

(** A file-scope declaration of the shape the header uses:
    [static T * const name attributes = @"literal";]. *)
Record declaration := {
  decl_static : bool;
  decl_type : string;
  decl_const : bool;
  decl_name : string;
  decl_attrs : list string;
  decl_init : string
}.

Definition is_ident (kw : string) (t : token) : bool :=
  match t with Ident x => String.eqb x kw | _ => false end.

Definition is_punct (p : string) (t : token) : bool :=
  match t with Punct x => String.eqb x p | _ => false end.

(** An optional leading keyword. *)
Definition accept (kw : string) (toks : list token) : bool * list token :=
  match toks with
  | t :: rest => if is_ident kw t then (true, rest) else (false, toks)
  | [] => (false, [])
  end.

(** A run of [__attribute__((a))] specifiers. *)
Fixpoint parse_attributes (toks : list token) : list string * list token :=
  match toks with
  | kw :: o1 :: o2 :: Ident a :: c1 :: c2 :: rest =>
      if is_ident "__attribute__" kw && is_punct "(" o1 && is_punct "(" o2
         && is_punct ")" c1 && is_punct ")" c2
      then let '(more, rest') := parse_attributes rest in (a :: more, rest')
      else ([], toks)
  | _ => ([], toks)
  end.

Definition parse_initializer (toks : list token) : option string :=
  match toks with
  | [eq; ObjCString v; semi] =>
      if is_punct "=" eq && is_punct ";" semi then Some v else None
  | _ => None
  end.

Definition parse_declaration (toks : list token) : option declaration :=
  let '(static, toks) := accept "static" toks in
  match toks with
  | Ident ty :: star :: toks =>
      if is_punct "*" star then
        let '(const, toks) := accept "const" toks in
        match toks with
        | Ident name :: toks =>
            let '(attrs, toks) := parse_attributes toks in
            match parse_initializer toks with
            | Some v =>
                Some {| decl_static := static; decl_type := ty; decl_const := const;
                        decl_name := name; decl_attrs := attrs; decl_init := v |}
            | None => None
            end
        | _ => None
        end
      else None
  | _ => None
  end.

(** Every emitted line of a preprocessed file read as a declaration. *)
Definition declarations (st : state) : option (list declaration) :=
  mapM parse_declaration (emitted st).


(** The constants of a module once it is loaded: each name bound to the
    string of its initialiser.  The initialisers are literals, so loading
    runs no code. *)
Definition load (ds : list declaration) : gmap string string :=
  list_to_map (map (λ d, (decl_name d, decl_init d)) ds).

(** What code that includes the declarations can do with a name: read it, or
    try to assign to it.  The compiler rejects an assignment to a
    [const]-qualified or undeclared name, and a read of an undeclared one. *)
Inductive stmt :=
| Read (x : string)
| Assign (x : string) (v : string).

Definition lookup_decl (ds : list declaration) (x : string) : option declaration :=
  find (λ d, String.eqb (decl_name d) x) ds.

Definition accepted (ds : list declaration) (s : stmt) : bool :=
  match s with
  | Read x => match lookup_decl ds x with Some _ => true | None => false end
  | Assign x _ =>
      match lookup_decl ds x with Some d => negb (decl_const d) | None => false end
  end.

(** A statement acts on the store and may observe a value. *)
Definition exec (σ : gmap string string) (s : stmt)
  : option (gmap string string * list (string * string)) :=
  match s with
  | Read x => match σ !! x with Some v => Some (σ, [(x, v)]) | None => None end
  | Assign x v => Some (<[x := v]> σ, [])
  end.

Fixpoint exec_all (σ : gmap string string) (prog : list stmt)
  : option (gmap string string * list (string * string)) :=
  match prog with
  | [] => Some (σ, [])
  | s :: prog' =>
      match exec σ s with
      | Some (σ', obs) =>
          match exec_all σ' prog' with
          | Some (σ'', obs') => Some (σ'', obs ++ obs')
          | None => None
          end
      | None => None
      end
  end.

End ObjC.

(** ** The header, line by line *)

Module Header.
Import Cpp ObjC.

Definition dquote : string := String "034"%char EmptyString.

Definition quoted (s : string) : string := dquote +:+ s +:+ dquote.

Definition GeneratedAssetSymbols : list line := [
  (*  1 *) Import "Foundation/Foundation.h";
  (*  2 *) Blank;
  (*  3 *) IfHasAttribute "swift_private";
  (*  4 *) Define "AC_SWIFT_PRIVATE"
             [Ident "__attribute__"; Punct "("; Punct "("; Ident "swift_private";
              Punct ")"; Punct ")"];
  (*  5 *) Else;
  (*  6 *) Define "AC_SWIFT_PRIVATE" [];
  (*  7 *) Endif;
  (*  8 *) Blank;
  (*  9 *) DocComment " The resource bundle ID.";
  (* 10 *) Source [Ident "static"; Ident "NSString"; Punct "*"; Ident "const";
                   Ident "ACBundleID"; Ident "AC_SWIFT_PRIVATE"; Punct "=";
                   ObjCString "com.geekedoutinnovations.MetacognitiveJournal";
                   Punct ";"];
  (* 11 *) Blank;
  (* 12 *) DocComment (" The " +:+ quoted "AccentColor"
                         +:+ " asset catalog color resource.");
  (* 13 *) Source [Ident "static"; Ident "NSString"; Punct "*"; Ident "const";
                   Ident "ACColorNameAccentColor"; Ident "AC_SWIFT_PRIVATE";
                   Punct "="; ObjCString "AccentColor"; Punct ";"];
  (* 14 *) Blank;
  (* 15 *) DocComment (" The " +:+ quoted "Color" +:+ " asset catalog color resource.");
  (* 16 *) Source [Ident "static"; Ident "NSString"; Punct "*"; Ident "const";
                   Ident "ACColorNameColor"; Ident "AC_SWIFT_PRIVATE";
                   Punct "="; ObjCString "Color"; Punct ";"];
  (* 17 *) Blank;
  (* 18 *) DocComment (" The " +:+ quoted "Image" +:+ " asset catalog image resource.");
  (* 19 *) Source [Ident "static"; Ident "NSString"; Punct "*"; Ident "const";
                   Ident "ACImageNameImage"; Ident "AC_SWIFT_PRIVATE";
                   Punct "="; ObjCString "Image"; Punct ";"];
  (* 20 *) Blank;
  (* 21 *) Undef "AC_SWIFT_PRIVATE"
].

(** The header read inside a translation unit whose macro table is [env]
    and which has imported nothing yet. *)
Definition included (cc : compiler) (env : gmap string (list token)) : option state :=
  preprocess cc env GeneratedAssetSymbols.

(** The header on its own: no macro of the includer interferes. *)
Definition unit (cc : compiler) : option state := included cc ∅.

Definition constants (cc : compiler) : option (list declaration) :=
  match unit cc with Some st => declarations st | None => None end.

(** The value a name is bound to, as client code reads it. *)
Definition constant (cc : compiler) (x : string) : option string :=
  match constants cc with Some ds => load ds !! x | None => None end.

(** The four names of the header, as client code reads them. *)
Definition ACBundleID (cc : compiler) : option string :=
  constant cc "ACBundleID".
Definition ACColorNameAccentColor (cc : compiler) : option string :=
  constant cc "ACColorNameAccentColor".
Definition ACColorNameColor (cc : compiler) : option string :=
  constant cc "ACColorNameColor".
Definition ACImageNameImage (cc : compiler) : option string :=
  constant cc "ACImageNameImage".

(** The token lines of the file that are not directives or comments. *)
Definition sources (ls : list line) : list (list token) :=
  omap (λ l, match l with Source toks => Some toks | _ => None end) ls.


(** Each documentation comment with the line it documents. *)
Fixpoint documented (ls : list line) : list (string * list token) :=
  match ls with
  | DocComment text :: ((Source toks :: _) as rest) => (text, toks) :: documented rest
  | _ :: rest => documented rest
  | [] => []
  end.

(** The text up to the next double quote, and what follows the quote. *)
Fixpoint until_quote (s : string) : option (string * string) :=
  match s with
  | EmptyString => None
  | String c rest =>
      if Ascii.eqb c "034" then Some (EmptyString, rest)
      else match until_quote rest with
           | Some (before, after) => Some (String c before, after)
           | None => None
           end
  end.

(** The asset name a documentation comment quotes, if it quotes one. *)
Definition quoted_name (text : string) : option string :=
  match until_quote text with
  | Some (_, rest) =>
      match until_quote rest with Some (name, _) => Some name | None => None end
  | None => None
  end.


(** The replacement list either branch of the feature check gives the
    helper macro. *)
Definition swift_private : list token :=
  [Ident "__attribute__"; Punct "("; Punct "("; Ident "swift_private";
   Punct ")"; Punct ")"].

Definition helper_body (cc : compiler) : list token :=
  if has_attribute cc "swift_private" then swift_private else [].

Definition identifiers (toks : list token) : list string :=
  omap (λ t, match t with Ident x => Some x | _ => None end) toks.

(** The identifiers the declarations and the replacement list are written
    with, the helper macro apart.  An includer that has made none of them a
    macro is [hygienic]: the header then means the same as on its own. *)
Definition reserved : list string :=
  filter (λ x, x ≠ "AC_SWIFT_PRIVATE")
    (identifiers (swift_private ++ concat (sources GeneratedAssetSymbols))).

Definition hygienic (env : gmap string (list token)) : Prop :=
  Forall (λ x, env !! x = None) reserved.


(** The four declarations as they read under a compiler, written out
    ([constants_eq] proves that the header yields them). *)
Definition string_constant (cc : compiler) (name value : string) : declaration :=
  {| decl_static := true; decl_type := "NSString"; decl_const := true;
     decl_name := name;
     decl_attrs := if has_attribute cc "swift_private" then ["swift_private"] else [];
     decl_init := value |}.

Definition declared (cc : compiler) : list declaration :=
  [string_constant cc "ACBundleID" "com.geekedoutinnovations.MetacognitiveJournal";
   string_constant cc "ACColorNameAccentColor" "AccentColor";
   string_constant cc "ACColorNameColor" "Color";
   string_constant cc "ACImageNameImage" "Image"].

(** The kind of asset a documentation comment announces after the quoted
    name, spelled as the constant names spell it. *)
Definition resource_kind (text : string) : option string :=
  match until_quote text with
  | Some (_, rest) =>
      match until_quote rest with
      | Some (_, tail) =>
          if String.eqb tail " asset catalog color resource." then Some "Color"
          else if String.eqb tail " asset catalog image resource." then Some "Image"
          else None
      | None => None
      end
  | None => None
  end.

(** Two compilers to run the definitions on. *)
Definition clang : compiler := {| has_attribute := λ a, String.eqb a "swift_private" |}.
Definition plain_c : compiler := {| has_attribute := λ _, false |}.


End Header.

Import Cpp ObjC Header.

(** * Properties *)

(** Runs the preprocessor on explicit lines, leaving the macro table and the
    expansions symbolic: the equations in the context decide each group,
    each operand and each import. *)
Ltac pp_simpl :=
  cbv beta iota zeta delta
    [step live with_macros with_conds with_import emit
     macros conds imports emitted else_seen];
  cbn [forallb active andb negb else_seen];
  repeat match goal with
         | H : _ = _ :> bool |- _ => rewrite H
         | H : operand _ _ = _ |- _ => rewrite H
         end;
  cbn [andb negb]; cbv beta iota.

Ltac pp_line :=
  lazymatch goal with
  | |- context [run ?cc ?st (?l :: ?ls)] =>
      change (run cc st (l :: ls))
        with (match step cc st l with
              | Some st' => run cc st' ls
              | None => None
              end);
      pp_simpl
  | |- context [run ?cc ?st []] =>
      change (run cc st []) with (Some st); pp_simpl
  end.

Ltac pp_walk := unfold preprocess, initial; repeat pp_line.

(** ** The preprocessor *)

Section expansion.
Implicit Types (env : gmap string (list token)) (t : token) (toks : list token).

Lemma expand_token_not_macro n env t :
  (∀ x, t = Ident x → env !! x = None) → expand_token n env t = [t].
Proof.
  intros Hfree. destruct n as [|n], t as [x| |]; try reflexivity.
  simpl. by rewrite (Hfree x eq_refl).
Qed.

(** Fuel beyond the size of the table changes nothing. *)
Lemma expand_token_fuel n env t :
  size env ≤ n → expand_token n env t = expand_token (size env) env t.
Proof.
  revert env t. induction n as [|n IH]; intros env t Hle.
  - by replace (size env) with 0 by lia.
  - destruct t as [x| |]; [|by destruct (size env)..].
    destruct (env !! x) as [body|] eqn:Hx.
    + assert (size (delete x env) = pred (size env)) as Hdel
        by (apply map_size_delete_Some; eauto).
      destruct (size env) as [|k] eqn:Hk.
      { apply map_size_empty_iff in Hk. subst env. by rewrite lookup_empty in Hx. }
      simpl in *. rewrite Hx. f_equal. apply map_ext. intros t'.
      rewrite IH by lia. by rewrite Hdel.
    + rewrite !expand_token_not_macro; [done|by intros ? [= ->]..].
Qed.

Lemma expand_tokens_free n env toks :
  (∀ y, Ident y ∈ toks → env !! y = None) →
  concat (map (expand_token n env) toks) = toks.
Proof.
  induction toks as [|t toks IH]; intros Hfree; [done|].
  simpl. rewrite expand_token_not_macro, IH; [done| |].
  - intros y Hy. apply Hfree. by right.
  - intros y ->. apply Hfree. by left.
Qed.

(** A table in which [x] is the only macro that the line, and the macro's own
    replacement list, can reach. *)
Lemma expand_insert env x body toks :
  (∀ y, Ident y ∈ toks → y ≠ x → env !! y = None) →
  (∀ y, Ident y ∈ body → y ≠ x → env !! y = None) →
  expand (<[x := body]> env) toks = replace_ident x body toks.
Proof.
  intros Htoks Hbody. unfold expand, replace_ident. f_equal.
  apply map_ext_in. intros t Ht%list_elem_of_In.
  destruct (size (<[x := body]> env)) as [|k] eqn:Hk.
  { apply map_size_empty_iff in Hk. by apply insert_non_empty in Hk. }
  case_decide as Hx.
  - subst t. simpl. rewrite lookup_insert_eq.
    apply expand_tokens_free. intros y Hy.
    destruct (decide (y = x)) as [->|Hne]; [apply lookup_delete_eq|].
    rewrite lookup_delete_ne, lookup_insert_ne by done. by apply Hbody.
  - apply expand_token_not_macro. intros y ->.
    rewrite lookup_insert_ne by congruence. apply Htoks; congruence.
Qed.

Lemma operand_free env a : env !! a = None → operand env a = Some a.
Proof.
  intros Hfree. unfold operand, expand. cbn [map concat].
  rewrite expand_token_not_macro; [done|]. by intros ? [= <-].
Qed.

End expansion.

(** ** The header under any compiler, from any state *)

(** In a live position where [swift_private] is not a macro, the header
    opens and closes its own conditional, reads Foundation unless that was
    done before, puts out its four lines expanded under the helper macro of
    the branch taken, and leaves the table with the helper macro removed. *)
Lemma run_header_live cc st :
  live st = true → macros st !! "swift_private" = None →
  run cc st GeneratedAssetSymbols =
  Some {| macros := delete "AC_SWIFT_PRIVATE" (macros st);
          conds := conds st;
          imports := if bool_decide ("Foundation/Foundation.h" ∈ imports st)
                     then imports st
                     else imports st ++ ["Foundation/Foundation.h"];
          emitted := emitted st ++
            map (expand (<["AC_SWIFT_PRIVATE" := helper_body cc]> (macros st)))
                (sources GeneratedAssetSymbols) |}.
Proof.
  destruct st as [m cs im em]. unfold live. cbn [conds macros imports emitted].
  intros Hlive Hop%operand_free.
  unfold GeneratedAssetSymbols at 1. unfold helper_body.
  destruct (bool_decide ("Foundation/Foundation.h" ∈ im)) eqn:Himp;
    destruct (has_attribute cc "swift_private") eqn:Hattr; pp_walk;
    rewrite delete_insert_eq, <-!app_assoc; reflexivity.
Qed.


Lemma included_eq cc env :
  env !! "swift_private" = None →
  included cc env =
  Some {| macros := delete "AC_SWIFT_PRIVATE" env;
          conds := [];
          imports := ["Foundation/Foundation.h"];
          emitted := map (expand (<["AC_SWIFT_PRIVATE" := helper_body cc]> env))
                         (sources GeneratedAssetSymbols) |}.
Proof.
  intros Hfree. unfold included, preprocess.
  by rewrite (run_header_live cc (initial env)).
Qed.



Lemma elem_of_identifiers x toks : x ∈ identifiers toks ↔ Ident x ∈ toks.
Proof.
  unfold identifiers. rewrite list_elem_of_omap. split.
  - intros ([y| |] & Hin & [= <-]). done.
  - intros Hin. by exists (Ident x).
Qed.

Lemma reserved_source toks y :
  toks ∈ sources GeneratedAssetSymbols → Ident y ∈ toks →
  y ≠ "AC_SWIFT_PRIVATE" → y ∈ reserved.
Proof.
  intros Htoks Hy Hne. apply list_elem_of_filter. split; [done|].
  apply elem_of_identifiers, elem_of_app. right.
  apply list_elem_of_In, in_concat. exists toks.
  by rewrite <-!list_elem_of_In.
Qed.

Lemma reserved_helper cc y :
  Ident y ∈ helper_body cc → y ≠ "AC_SWIFT_PRIVATE" → y ∈ reserved.
Proof.
  intros Hy Hne. apply list_elem_of_filter. split; [done|].
  apply elem_of_identifiers, elem_of_app. left.
  unfold helper_body in Hy. destruct (has_attribute cc "swift_private"); [done|].
  by apply elem_of_nil in Hy.
Qed.

Lemma hygienic_lookup env x :
  hygienic env → x ∈ reserved → env !! x = None.
Proof. unfold hygienic. rewrite Forall_forall. auto. Qed.

Lemma hygienic_operand env : hygienic env → env !! "swift_private" = None.
Proof.
  intros Hyg. apply hygienic_lookup; [done|].
  apply (bool_decide_unpack _). vm_compute. reflexivity.
Qed.

(** In a hygienic includer the emitted lines are the source lines with the
    helper macro replaced, whatever else the table holds. *)
Lemma included_hygienic cc env :
  hygienic env →
  included cc env =
  Some {| macros := delete "AC_SWIFT_PRIVATE" env;
          conds := [];
          imports := ["Foundation/Foundation.h"];
          emitted := map (replace_ident "AC_SWIFT_PRIVATE" (helper_body cc))
                         (sources GeneratedAssetSymbols) |}.
Proof.
  intros Hyg. rewrite included_eq by (by apply hygienic_operand). do 2 f_equal.
  apply map_ext_in. intros toks Htoks%list_elem_of_In.
  apply expand_insert; intros y Hy Hne; apply hygienic_lookup; trivial.
  - by apply (reserved_source toks).
  - by apply (reserved_helper cc).
Qed.

Lemma hygienic_empty : hygienic ∅.
Proof. apply Forall_forall. intros x _. apply lookup_empty. Qed.

Lemma unit_eq cc :
  unit cc =
  Some {| macros := ∅;
          conds := [];
          imports := ["Foundation/Foundation.h"];
          emitted := map (replace_ident "AC_SWIFT_PRIVATE" (helper_body cc))
                         (sources GeneratedAssetSymbols) |}.
Proof.
  unfold unit. rewrite (included_hygienic cc ∅ hygienic_empty).
  by rewrite delete_empty.
Qed.

(** The declarations the header makes: the same four under every compiler,
    carrying the attribute exactly when the compiler knows it. *)
Lemma declarations_hygienic cc env st :
  hygienic env → included cc env = Some st → declarations st = Some (declared cc).
Proof.
  intros Hyg. rewrite (included_hygienic cc env Hyg). intros [= <-].
  unfold declared, string_constant, helper_body.
  destruct (has_attribute cc "swift_private"); vm_compute; reflexivity.
Qed.

Lemma constants_eq cc : constants cc = Some (declared cc).
Proof.
  unfold constants. destruct (unit cc) as [st|] eqn:Hst.
  - apply (declarations_hygienic cc ∅ st hygienic_empty Hst).
  - by rewrite unit_eq in Hst.
Qed.

(** The comments of the three asset constants quote the asset they name,
    and the constant declared under each comment holds that very name; the
    comment of the bundle identifier quotes nothing. *)
Lemma comments_quote_values cc :
  ∃ ds, constants cc = Some ds ∧
    map (λ p, quoted_name p.1) (documented GeneratedAssetSymbols)
    = None :: map (λ d, Some (decl_init d)) (tail ds) ∧
    mapM (λ p, parse_declaration
                 (replace_ident "AC_SWIFT_PRIVATE" (helper_body cc) p.2))
         (documented GeneratedAssetSymbols)
    = Some ds.
Proof.
  exists (declared cc). split; [apply constants_eq|]. split; [reflexivity|].
  unfold declared, string_constant, helper_body.
  destruct (has_attribute cc "swift_private"); vm_compute; reflexivity.
Qed.

(** ** Loaded constants and client code *)

Section client.
Implicit Types (ds : list declaration) (d : declaration) (x v : string).

Lemma load_lookup ds x : load ds !! x = decl_init <$> lookup_decl ds x.
Proof.
  unfold load, lookup_decl. induction ds as [|d ds IH]; simpl.
  - apply lookup_empty.
  - destruct (String.eqb_spec (decl_name d) x) as [->|Hne].
    + apply lookup_insert_eq.
    + by rewrite lookup_insert_ne.
Qed.

Lemma lookup_decl_elem_of ds x d :
  lookup_decl ds x = Some d → d ∈ ds ∧ decl_name d = x.
Proof.
  intros [Hin Heq]%find_some. split; [by apply list_elem_of_In|].
  by apply String.eqb_eq.
Qed.

Lemma lookup_decl_declared ds d :
  d ∈ ds → ∃ d', lookup_decl ds (decl_name d) = Some d'.
Proof.
  intros Hin. destruct (lookup_decl ds (decl_name d)) as [d'|] eqn:Hfind; [eauto|].
  apply list_elem_of_In in Hin.
  pose proof (find_none _ _ Hfind d Hin) as Hne. simpl in Hne.
  by rewrite String.eqb_refl in Hne.
Qed.

(** When every declaration is [const], a statement the compiler accepts is a
    read: it runs, leaves the store as loaded, and observes the loaded
    value. *)
Lemma exec_accepted ds s :
  Forall (λ d, decl_const d = true) ds → accepted ds s = true →
  ∃ obs, exec (load ds) s = Some (load ds, obs)
       ∧ Forall (λ p, load ds !! p.1 = Some p.2) obs.
Proof.
  intros Hconst Hacc. destruct s as [x|x v]; simpl in *.
  - destruct (lookup_decl ds x) as [d|] eqn:Hd; [|done].
    rewrite load_lookup, Hd. simpl. eexists. split; [done|].
    repeat constructor. simpl. by rewrite load_lookup, Hd.
  - destruct (lookup_decl ds x) as [d|] eqn:Hd; [|done].
    apply lookup_decl_elem_of in Hd as [Hin _].
    rewrite Forall_forall in Hconst. rewrite (Hconst d Hin) in Hacc. done.
Qed.

Lemma exec_all_accepted ds prog :
  Forall (λ d, decl_const d = true) ds → forallb (accepted ds) prog = true →
  ∃ obs, exec_all (load ds) prog = Some (load ds, obs)
       ∧ Forall (λ p, load ds !! p.1 = Some p.2) obs.
Proof.
  intros Hconst. induction prog as [|s prog IH]; simpl; intros Hacc.
  - eexists. split; [done|constructor].
  - apply andb_prop in Hacc as [Hs Hprog].
    destruct (exec_accepted ds s Hconst Hs) as (obs & -> & Hobs).
    destruct (IH Hprog) as (obs' & -> & Hobs').
    eexists. split; [done|]. by apply Forall_app.
Qed.

Lemma assign_rejected ds d v :
  Forall (λ d, decl_const d = true) ds → d ∈ ds →
  accepted ds (Assign (decl_name d) v) = false.
Proof.
  intros Hconst Hin. simpl.
  destruct (lookup_decl_declared ds d Hin) as [d' Hd']. rewrite Hd'.
  apply lookup_decl_elem_of in Hd' as [Hin' _].
  rewrite Forall_forall in Hconst. by rewrite (Hconst d' Hin').
Qed.

Lemma declared_const cc : Forall (λ d, decl_const d = true) (declared cc).
Proof. repeat constructor. Qed.

Lemma read_accepted ds xs :
  xs ⊆ map decl_name ds → forallb (accepted ds) (map Read xs) = true.
Proof.
  intros Hsub. apply forallb_forall. intros s Hs.
  apply in_map_iff in Hs as (x & <- & Hx%list_elem_of_In).
  apply Hsub in Hx. apply list_elem_of_In, in_map_iff in Hx as (d & <- & Hd).
  apply list_elem_of_In in Hd. simpl.
  by destruct (lookup_decl_declared ds d Hd) as [d' ->].
Qed.

Lemma exec_all_observes ds prog σ obs :
  exec_all σ prog = Some (load ds, obs) →
  omap (λ s, match s with Read x => Some x | Assign _ _ => None end) prog
  = map fst obs.
Proof.
  revert σ obs. induction prog as [|s prog IH]; simpl; intros σ obs.
  - by intros [= _ <-].
  - destruct (exec σ s) as [[σ' o]|] eqn:Hs; [|done].
    destruct (exec_all σ' prog) as [[σ'' o']|] eqn:Hprog; [|done].
    intros [= -> <-]. rewrite map_app, <-(IH _ _ Hprog).
    destruct s as [x|x v]; simpl in *.
    + destruct (σ !! x); [|done]. by injection Hs as <- <-.
    + by injection Hs as <- <-.
Qed.

Lemma load_nonempty ds x v :
  Forall (λ d, decl_init d ≠ "") ds → load ds !! x = Some v → v ≠ "".
Proof.
  intros Hne. rewrite load_lookup.
  destruct (lookup_decl ds x) as [d|] eqn:Hd; [|done]. intros [= <-].
  apply lookup_decl_elem_of in Hd as [Hin _].
  rewrite Forall_forall in Hne. by apply Hne.
Qed.

Lemma declared_nonempty cc : Forall (λ d, decl_init d ≠ "") (declared cc).
Proof. repeat constructor; discriminate. Qed.

End client.

(** * The statements of the specification *)

(** C1. The three asset-name constants have the quoted values: whatever the
    compiler answers to the feature check, [ACColorNameAccentColor] reads
    "AccentColor", [ACColorNameColor] reads "Color" and [ACImageNameImage]
    reads "Image". *)
Theorem asset_name_constants cc :
  ACColorNameAccentColor cc = Some "AccentColor" ∧
  ACColorNameColor cc = Some "Color" ∧
  ACImageNameImage cc = Some "Image".
Proof.
  unfold ACColorNameAccentColor, ACColorNameColor, ACImageNameImage, constant.
  rewrite constants_eq. repeat split; reflexivity.
Qed.

(** C8. The bundle identifier constant [ACBundleID] reads exactly
    "com.geekedoutinnovations.MetacognitiveJournal" under every compiler. *)
Theorem bundle_id_constant cc :
  ACBundleID cc = Some "com.geekedoutinnovations.MetacognitiveJournal".
Proof.
  unfold ACBundleID, constant. rewrite constants_eq. reflexivity.
Qed.

(** C2, as stated, fails: the declarations of the header are not three in
    number (here under [clang]; the same holds under every compiler). *)
Lemma not_three_string_constants :
  ¬ ∃ ds, constants clang = Some ds ∧ length ds = 3.
Proof.
  intros (ds & Hds & Hlen). rewrite constants_eq in Hds.
  injection Hds as <-. discriminate Hlen.
Qed.

(** C2, amended. The file declares exactly four static string constants:
    the bundle identifier and the three asset names, each a
    [static NSString * const] initialised by a string literal.  Apart from
    comments and blank lines the file holds, in this order, the Foundation
    import, the five lines of the feature check, the four declarations and
    the closing [#undef], and nothing else. *)
Theorem four_string_constants cc :
  (∃ ds, constants cc = Some ds ∧ length ds = 4 ∧
     map decl_name ds =
       ["ACBundleID"; "ACColorNameAccentColor"; "ACColorNameColor";
        "ACImageNameImage"] ∧
     Forall (λ d, decl_static d = true ∧ decl_type d = "NSString"
                  ∧ decl_const d = true) ds) ∧
  List.filter (λ l, match l with DocComment _ | Blank => false | _ => true end)
    GeneratedAssetSymbols
  = [Import "Foundation/Foundation.h";
     IfHasAttribute "swift_private";
     Define "AC_SWIFT_PRIVATE" swift_private;
     Else;
     Define "AC_SWIFT_PRIVATE" [];
     Endif]
    ++ map Source (sources GeneratedAssetSymbols)
    ++ [Undef "AC_SWIFT_PRIVATE"] ∧
  length (sources GeneratedAssetSymbols) = 4.
Proof.
  split; [|split; reflexivity].
  exists (declared cc). split; [apply constants_eq|].
  split; [reflexivity|]. split; [reflexivity|].
  repeat constructor.
Qed.

(** C3. Every string constant the file declares (the bundle identifier, the
    two colour names and the image name) is a non-empty string. *)
Theorem constants_nonempty cc :
  ∃ ds, constants cc = Some ds ∧
    map decl_name ds =
      ["ACBundleID"; "ACColorNameAccentColor"; "ACColorNameColor";
       "ACImageNameImage"] ∧
    Forall (λ d, decl_init d ≠ "") ds.
Proof.
  exists (declared cc). split; [apply constants_eq|]. split; [reflexivity|].
  repeat constructor; discriminate.
Qed.

(** C9. The four constants are pairwise distinct in name and in value. *)
Theorem constants_pairwise_distinct cc :
  ∃ ds, constants cc = Some ds ∧
    map decl_name ds =
      ["ACBundleID"; "ACColorNameAccentColor"; "ACColorNameColor";
       "ACImageNameImage"] ∧
    map decl_init ds =
      ["com.geekedoutinnovations.MetacognitiveJournal"; "AccentColor"; "Color";
       "Image"] ∧
    NoDup (map decl_name ds) ∧ NoDup (map decl_init ds).
Proof.
  exists (declared cc). split; [apply constants_eq|].
  split; [reflexivity|]. split; [reflexivity|].
  split; apply (bool_decide_unpack _); vm_compute; reflexivity.
Qed.



(** C4. The constants are immutable for as long as the module is loaded.
    Every declaration is [const], so the compiler rejects an assignment to
    any of them; a program it accepts runs to the end, leaves the store as
    it was loaded, and each read observes the loaded value: two reads of one
    constant, wherever they stand in the program, observe the same string. *)
Theorem constants_immutable cc ds prog :
  constants cc = Some ds →
  forallb (accepted ds) prog = true →
  (∃ obs, exec_all (load ds) prog = Some (load ds, obs) ∧
     Forall (λ p, constant cc p.1 = Some p.2) obs ∧
     ∀ x v1 v2, (x, v1) ∈ obs → (x, v2) ∈ obs → v1 = v2) ∧
  (∀ d v, d ∈ ds → accepted ds (Assign (decl_name d) v) = false).
Proof.
  intros Hds Hacc. pose proof Hds as Heq. rewrite constants_eq in Heq.
  injection Heq as <-. split.
  - destruct (exec_all_accepted _ prog (declared_const cc) Hacc) as (obs & Hrun & Hobs).
    exists obs. split; [done|]. unfold constant. rewrite Hds. split; [done|].
    rewrite Forall_forall in Hobs. intros x v1 v2 H1%Hobs H2%Hobs.
    simpl in *. congruence.
  - intros d v Hd. by apply assign_rejected; [apply declared_const|].
Qed.

Lemma constants_immutable_witness :
  (∃ obs,
     exec_all (load (declared clang))
       [Read "ACBundleID"; Read "ACColorNameColor"; Read "ACBundleID"]
     = Some (load (declared clang), obs) ∧
     Forall (λ p, constant clang p.1 = Some p.2) obs ∧
     ∀ x v1 v2, (x, v1) ∈ obs → (x, v2) ∈ obs → v1 = v2) ∧
  (∀ d v, d ∈ declared clang →
     accepted (declared clang) (Assign (decl_name d) v) = false).
Proof.
  apply (constants_immutable clang (declared clang)
           [Read "ACBundleID"; Read "ACColorNameColor"; Read "ACBundleID"]).
  - vm_compute. reflexivity.
  - vm_compute. reflexivity.
Defined.

(** C6. Reading a constant of the header cannot fail.  Each of the four is
    declared with a literal initialiser, so nothing runs when the module is
    loaded; any sequence of reads of the four names, in any order and however
    long, runs to the end, and every read yields the string of the header,
    never an error and never an empty value. *)
Theorem reads_total cc xs :
  Forall (λ x, x ∈ ["ACBundleID"; "ACColorNameAccentColor"; "ACColorNameColor";
                    "ACImageNameImage"]) xs →
  ∃ ds obs, constants cc = Some ds ∧
    exec_all (load ds) (map Read xs) = Some (load ds, obs) ∧
    map fst obs = xs ∧
    Forall (λ p, constant cc p.1 = Some p.2 ∧ p.2 ≠ "") obs.
Proof.
  intros Hxs. exists (declared cc).
  assert (forallb (accepted (declared cc)) (map Read xs) = true) as Hacc.
  { apply read_accepted. intros x Hx. rewrite Forall_forall in Hxs. auto. }
  destruct (exec_all_accepted _ _ (declared_const cc) Hacc) as (obs & Hrun & Hobs).
  exists obs. split; [apply constants_eq|]. split; [done|]. split.
  - pose proof (exec_all_observes _ _ _ _ Hrun) as <-.
    clear. induction xs as [|x xs IH]; [done|]. cbn [map omap list_omap].
    f_equal. exact IH.
  - unfold constant. rewrite constants_eq.
    eapply Forall_impl; [exact Hobs|]. intros [x v] Hv. split; [done|].
    exact (load_nonempty (declared cc) x v (declared_nonempty cc) Hv).
Qed.

Lemma reads_total_witness :
  ∃ ds obs, constants plain_c = Some ds ∧
    exec_all (load ds)
      (map Read ["ACImageNameImage"; "ACBundleID"; "ACImageNameImage"])
    = Some (load ds, obs) ∧
    map fst obs = ["ACImageNameImage"; "ACBundleID"; "ACImageNameImage"] ∧
    Forall (λ p, constant plain_c p.1 = Some p.2 ∧ p.2 ≠ "") obs.
Proof.
  apply (reads_total plain_c ["ACImageNameImage"; "ACBundleID"; "ACImageNameImage"]).
  repeat constructor.
Defined.




(** * Further properties of the header *)











(** X4. The header binds four names and no other: a name reads as a string
    exactly when it is one of the four, so a lookup under any other spelling
    finds nothing. *)
Theorem only_four_names cc x :
  is_Some (constant cc x) ↔
  x ∈ ["ACBundleID"; "ACColorNameAccentColor"; "ACColorNameColor";
       "ACImageNameImage"].
Proof.
  unfold constant. rewrite constants_eq, load_lookup.
  unfold lookup_decl, declared, string_constant. cbn [find decl_name].
  rewrite !elem_of_cons, elem_of_nil.
  repeat (match goal with
          | |- context [String.eqb ?a x] => destruct (String.eqb_spec a x)
          end; [subst; split; [tauto|by eauto]|]).
  split; [by intros [? ?]|]. intros [?|[?|[?|[?|[]]]]]; congruence.
Qed.

(** X5. The name of each asset constant is built from its comment and its
    value: the comment quotes the value and names the kind of asset, and
    the constant is called [AC], the kind, [Name] and the value, in that
    order.  The bundle identifier, whose comment quotes nothing, is the one
    constant outside the scheme. *)
Theorem asset_names_follow_comments cc :
  ∃ d ds, constants cc = Some (d :: ds) ∧
    match documented GeneratedAssetSymbols with
    | c :: cs =>
        quoted_name c.1 = None ∧ decl_name d = "ACBundleID" ∧
        Forall2 (λ p d,
          quoted_name p.1 = Some (decl_init d) ∧
          ∃ kind, resource_kind p.1 = Some kind ∧
                  decl_name d = "AC" +:+ kind +:+ "Name" +:+ decl_init d) cs ds
    | [] => False
    end.
Proof.
  eexists _, _. split; [apply constants_eq|].
  cbn. split; [reflexivity|]. split; [reflexivity|].
  repeat constructor; eexists; split; reflexivity.
Qed.


